(** * lilypad: the Bacalhau job runner of [pkg/bridge/bacalhau.go]

    A shallow embedding of [xRunner.Create] and [xRunner.FindCompleted]
    together with the properties of the bridge that rest on them.

    Go values are rendered as follows.
    - [string] is [String.string]; [int] is [Z] (the counts that occur are
      lengths of in-memory slices, far from the 64-bit bound).
    - [error] is the text of its [Error()] method; a nilable [error] or
      pointer is an [option].
    - a multiple return [(x, err)] is a pair.
    - logging and the calls to the remote API are effects: every function
      that performs them returns, next to its result, the list of effects
      in the order they were performed. *)

From Stdlib Require Import List String ZArith Bool Lia.
Import ListNotations.

Local Open Scope string_scope.
Local Open Scope Z_scope.
Local Open Scope list_scope.

(** ** Errors *)

Definition error : Type := string.

(** [errors.Wrap(err, msg)] of github.com/pkg/errors: the message is put in
    front of the cause. It is only called on a non-nil [err] here. *)
Definition errors_Wrap (err : error) (msg : string) : error :=
  (msg ++ ": " ++ err)%string.

Definition is_nil {A : Type} (o : option A) : bool :=
  match o with
  | None => true
  | Some _ => false
  end.

(** ** The data of Bacalhau's [model] package that the bridge touches *)

Module Model.

(** The two states the source names are [JobStateError] and
    [JobStateCompleted]; [JobStateRunning] stands for a shard that is
    still executing. *)
Inductive JobStateType : Type :=
| JobStateRunning
| JobStateError
| JobStateCompleted.

Definition JobStateType_eqb (a b : JobStateType) : bool :=
  match a, b with
  | JobStateRunning, JobStateRunning => true
  | JobStateError, JobStateError => true
  | JobStateCompleted, JobStateCompleted => true
  | _, _ => false
  end.

Record JobShardState : Type := {
  NodeID : string;
  ShardIndex : Z;
  State : JobStateType
}.

(** [bacjob.Status.State]: the per-shard states the remote reports. *)
Record JobState : Type := {
  Shards : list JobShardState
}.

Record JobStatus : Type := {
  Status_State : JobState
}.

Record Metadata : Type := {
  ID : string
}.

Record Spec : Type := {
  Image : string;
  ExecutionCount : Z;
  Annotations : list string
}.

Record Job : Type := {
  Job_Metadata : Metadata;
  Job_Spec : Spec;
  Job_Status : JobStatus
}.

Definition IncludedTag : Type := string.

Definition with_Spec (j : Job) (s : Spec) : Job :=
  {| Job_Metadata := Job_Metadata j; Job_Spec := s; Job_Status := Job_Status j |}.

Definition with_Annotations (j : Job) (a : list string) : Job :=
  with_Spec j {| Image := Image (Job_Spec j);
                 ExecutionCount := ExecutionCount (Job_Spec j);
                 Annotations := a |}.

(** [model.NewJob()]: an empty job record. *)
Definition NewJob : Job :=
  {| Job_Metadata := {| ID := "" |};
     Job_Spec := {| Image := ""; ExecutionCount := 0; Annotations := [] |};
     Job_Status := {| Status_State := {| Shards := [] |} |} |}.

End Model.

Import Model.

(** A predicate over a job state, as the [job] package hands them out:
    [func(model.JobState) (bool, error)]. *)
Definition CheckStatesFunction : Type := JobState -> bool * option error.

(** ** The imported Bacalhau functions

    [model.NewJobWithSaneProductionDefaults] and the four functions of
    package [job] are code of the Bacalhau dependency. The bridge is
    written against them, so the embedding takes them as an interface;
    an instance that follows the specification's description of them is
    [spec_bacalhau] below. *)
Class Bacalhau : Type := {
  NewJobWithSaneProductionDefaults : option Job * option error;
  GetJobTotalExecutionCount : Job -> Z;
  WaitForTerminalStates : Z -> CheckStatesFunction;
  WaitThrowErrors : list JobStateType -> CheckStatesFunction;
  WaitForJobStates : list (JobStateType * Z) -> CheckStatesFunction
}.

(** ** Effects *)

Inductive Level : Type := Debug | Info | Warn | Error.

Inductive Field : Type :=
| Str (key : string) (val : string)
| Int (key : string) (val : Z)
| Err (val : option error).

(** The arguments of [APIClient.List], with the deadline of the context
    the call is made under (in seconds). *)
Record ListRequest : Type := {
  deadline_seconds : Z;
  idFilter : string;
  includeTags : list IncludedTag;
  excludeTags : list IncludedTag;
  maxJobs : Z;
  returnAll : bool;
  sortBy : string;
  sortReverse : bool
}.

Inductive Effect : Type :=
| Logged (lvl : Level) (fields : list Field) (msg : string)
| Submitted (j : Job)
| Listed (req : ListRequest).

(** A computation that returns a value and the effects it performed. *)
Definition M (A : Type) : Type := A * list Effect.

Definition ret {A : Type} (a : A) : M A := (a, []).

Definition bind {A B : Type} (m : M A) (f : A -> M B) : M B :=
  let (a, t1) := m in
  let (b, t2) := f a in
  (b, t1 ++ t2).

Definition tell (e : Effect) : M unit := (tt, [e]).

Notation "x <- c1 ;; c2" := (bind c1 (fun x => c2))
  (at level 61, c1 at next level, right associativity).
Notation "c1 ;; c2" := (bind c1 (fun _ => c2))
  (at level 61, right associativity).

Definition value {A : Type} (m : M A) : A := fst m.
Definition effects {A : Type} (m : M A) : list Effect := snd m.

(** ** The remote API client *)

Module publicapi.

(** [publicapi.APIClient]: what the remote system answers to a submission
    and to a listing. A listing that fails or runs into its deadline shows
    as a non-nil error. *)
Record APIClient : Type := {
  Submit_response : Job -> option Job * option error;
  List_response : ListRequest -> list Job * option error
}.

Definition Submit (c : APIClient) (j : Job) : M (option Job * option error) :=
  tell (Submitted j) ;; ret (Submit_response c j).

Definition List (c : APIClient) (req : ListRequest) : M (list Job * option error) :=
  tell (Listed req) ;; ret (List_response c req).

End publicapi.

(** ** The events of the bridge *)

Definition OrderId : Type := string.

(** Modelled from the spec: the order event (type ContractSubmittedEvent,
    declared outside bacalhau.go) exposes a derived job specification and
    an Order Identifier. *)
Record ContractSubmittedEvent : Type := {
  cse_OrderId : OrderId;
  cse_Spec : Spec
}.

(** Modelled from the spec: JobCreated wraps the remote-assigned job
    together with the original event into a running-job handle (type
    BacalhauJobRunningEvent, declared outside bacalhau.go), which exposes
    OrderId() and JobID(). *)
Record BacalhauJobRunningEvent : Type := {
  origin : ContractSubmittedEvent;
  handle : Job
}.

Definition JobCreated (e : ContractSubmittedEvent) (j : Job) : BacalhauJobRunningEvent :=
  {| origin := e; handle := j |}.

Definition OrderId_of (j : BacalhauJobRunningEvent) : OrderId := cse_OrderId (origin j).

Definition JobID (j : BacalhauJobRunningEvent) : string := ID (Job_Metadata (handle j)).

(** Modelled from the spec: Completed() and Failed() are constructors that
    turn a running handle into the respective terminal event type
    (declared outside bacalhau.go). *)
Inductive BacalhauJobCompletedEvent : Type :=
| Completed (j : BacalhauJobRunningEvent).

Inductive BacalhauJobFailedEvent : Type :=
| Failed (j : BacalhauJobRunningEvent).

(** ** The runner *)

Definition LilypadJobAnnotation : string := "lilypad-job".

Record xRunner : Type := {
  Client : publicapi.APIClient
}.

(** What a call comes back with: its results, or a run-time panic (a nil
    pointer dereference). *)
Inductive Outcome (A : Type) : Type :=
| Returned (a : A)
| Panicked.

Arguments Returned {A} a.
Arguments Panicked {A}.

Section Runner.

Context {lib : Bacalhau}.

(** [xRunner.Create], lines 36-54. *)
Definition Create (r : xRunner) (e : ContractSubmittedEvent)
  : M (Outcome (option BacalhauJobRunningEvent * option error)) :=
  let '(job, err) := NewJobWithSaneProductionDefaults in
  match err with
  | Some err => ret (Returned (None, Some (errors_Wrap err "error creating Bacalhau job")))
  | None =>
    match job with
    | None => ret Panicked
    | Some job =>
      let job := with_Spec job (cse_Spec e) in
      let job := with_Annotations job
                   (Annotations (Job_Spec job) ++
                    [LilypadJobAnnotation;
                     (LilypadJobAnnotation ++ "-" ++ cse_OrderId e)%string]) in
      res <- publicapi.Submit (Client r) job ;;
      let '(job, err) := res in
      let err := match err with
                 | Some err => Some (errors_Wrap err "error submitting Bacalhau job")
                 | None => None
                 end in
      match job with
      | None => ret Panicked
      | Some job =>
        tell (Logged Info [Str "id" (cse_OrderId e); Str "job" (ID (Job_Metadata job))]
                "Created Bacalhau job") ;;
        ret (Returned (Some (JobCreated e job), err))
      end
    end
  end.

(** The two result slices of [FindCompleted] while they are built. *)
Definition Results : Type :=
  (list BacalhauJobCompletedEvent * list BacalhauJobFailedEvent)%type.

Definition ctx_fields (j : BacalhauJobRunningEvent) : list Field :=
  [Str "id" (OrderId_of j); Str "job" (JobID j)].

(** The inner loop, lines 75-100: [continue] on a different identifier,
    classify and [break] on the first equal one. *)
Fixpoint scan (j : BacalhauJobRunningEvent) (bacjobs : list Job) (acc : Results)
  : M Results :=
  match bacjobs with
  | [] => ret acc
  | bacjob :: rest =>
    if negb (String.eqb (ID (Job_Metadata bacjob)) (JobID j)) then
      scan j rest acc
    else
      let totalShards := GetJobTotalExecutionCount bacjob in
      let jobStillRunning := WaitForTerminalStates totalShards in
      let jobHasErrors := WaitThrowErrors [JobStateError] in
      let jobComplete := WaitForJobStates [(JobStateCompleted, totalShards)] in
      let st := Status_State (Job_Status bacjob) in
      let '(ok, err) := jobStillRunning st in
      if negb ok || negb (is_nil err) then
        tell (Logged Debug (ctx_fields j ++ [Err err]) "Bacalhau job still in progress") ;;
        ret acc
      else
        let '(ok, err) := jobComplete st in
        if ok && is_nil err then
          tell (Logged Info (ctx_fields j ++ [Err err]) "Bacalhau job completed") ;;
          ret (fst acc ++ [Completed j], snd acc)
        else
          let '(ok, err) := jobHasErrors st in
          if negb ok || negb (is_nil err) then
            tell (Logged Info (ctx_fields j ++ [Err err]) "Bacalhau job failed") ;;
            ret (fst acc, snd acc ++ [Failed j])
          else
            tell (Logged Warn (ctx_fields j) "Bacalhau job in unknown state") ;;
            ret acc
  end.

(** The outer loop, lines 72-101. *)
Fixpoint each_job (jobs : list BacalhauJobRunningEvent) (bacjobs : list Job)
         (acc : Results) : M Results :=
  match jobs with
  | [] => ret acc
  | j :: rest =>
    acc' <- scan j bacjobs acc ;;
    each_job rest bacjobs acc'
  end.

Definition list_request : ListRequest :=
  {| deadline_seconds := 5;
     idFilter := "";
     includeTags := [LilypadJobAnnotation];
     excludeTags := [];
     maxJobs := 100;
     returnAll := false;
     sortBy := "created_at";
     sortReverse := true |}.

(** [xRunner.FindCompleted], lines 57-104. The Go signature has no error
    result: the two slices are all the caller receives. *)
Definition FindCompleted (runner : xRunner) (jobs : list BacalhauJobRunningEvent)
  : M Results :=
  tell (Logged Debug [Int "jobs" (Z.of_nat (List.length jobs))] "Looking at job states") ;;
  let completed : list BacalhauJobCompletedEvent := [] in
  let failed : list BacalhauJobFailedEvent := [] in
  res <- publicapi.List (Client runner) list_request ;;
  let '(bacjobs, err) := res in
  match err with
  | Some err =>
    tell (Logged Error [Err (Some err)] "") ;;
    ret (completed, failed)
  | None => each_job jobs bacjobs (completed, failed)
  end.

End Runner.

Definition completed_list (r : M Results) : list BacalhauJobCompletedEvent :=
  fst (value r).

Definition failed_list (r : M Results) : list BacalhauJobFailedEvent :=
  snd (value r).

(** ** The Bacalhau functions as the specification describes them *)

(** Modelled from the spec: a terminal state is one from which no further
    transition occurs, completed or errored (package model of the Bacalhau
    dependency is not part of the bridge's sources). *)
Definition IsTerminal (s : JobStateType) : bool :=
  match s with
  | JobStateRunning => false
  | JobStateError => true
  | JobStateCompleted => true
  end.

(** The number of shards of a tally that report state [s]. *)
Definition count_state (s : JobStateType) (shards : list JobShardState) : Z :=
  Z.of_nat (List.length (filter (fun sh => JobStateType_eqb (State sh) s) shards)).

(** Modelled from the spec: the Shard Execution Count is the total number of
    parallel execution units the remote system created for the job
    (job.GetJobTotalExecutionCount belongs to the Bacalhau dependency). *)
Definition spec_GetJobTotalExecutionCount (j : Job) : Z :=
  ExecutionCount (Job_Spec j).

(** Modelled from the spec: the job has reached a terminal state for all its
    shards, that is, all [totalShards] of them are reported and each one is
    terminal; the test itself raises no error
    (job.WaitForTerminalStates belongs to the Bacalhau dependency). *)
Definition spec_WaitForTerminalStates (totalShards : Z) : CheckStatesFunction :=
  fun st =>
    ((totalShards <=? Z.of_nat (List.length (Shards st)))
     && forallb (fun sh => IsTerminal (State sh)) (Shards st),
     None).

(** Modelled from the spec: the test raises an error as soon as any shard
    reports one of the given error states, and passes without error
    otherwise (job.WaitThrowErrors belongs to the Bacalhau dependency). *)
Definition spec_WaitThrowErrors (errorStates : list JobStateType) : CheckStatesFunction :=
  fun st =>
    if existsb (fun sh => existsb (JobStateType_eqb (State sh)) errorStates) (Shards st)
    then (false, Some "job has error state"%string)
    else (true, None).

(** Modelled from the spec: true only if, for each required state, the count
    of shards reporting it equals the required count exactly
    (job.WaitForJobStates belongs to the Bacalhau dependency). *)
Definition spec_WaitForJobStates (required : list (JobStateType * Z)) : CheckStatesFunction :=
  fun st =>
    (forallb (fun rq => count_state (fst rq) (Shards st) =? snd rq) required, None).

#[export] Instance spec_bacalhau : Bacalhau := {
  NewJobWithSaneProductionDefaults := (Some NewJob, None);
  GetJobTotalExecutionCount := spec_GetJobTotalExecutionCount;
  WaitForTerminalStates := spec_WaitForTerminalStates;
  WaitThrowErrors := spec_WaitThrowErrors;
  WaitForJobStates := spec_WaitForJobStates
}.

(** The same library on a machine where building the default job fails. *)
Definition failing_defaults : Bacalhau := {|
  NewJobWithSaneProductionDefaults := (None, Some "merge failed"%string);
  GetJobTotalExecutionCount := spec_GetJobTotalExecutionCount;
  WaitForTerminalStates := spec_WaitForTerminalStates;
  WaitThrowErrors := spec_WaitThrowErrors;
  WaitForJobStates := spec_WaitForJobStates
|}.

(** ** Sample data *)

Definition shard (i : Z) (s : JobStateType) : JobShardState :=
  {| NodeID := "node"; ShardIndex := i; State := s |}.

Definition snapshot (id : string) (total : Z) (states : list JobShardState) : Job :=
  {| Job_Metadata := {| ID := id |};
     Job_Spec := {| Image := "ubuntu"; ExecutionCount := total;
                    Annotations := [LilypadJobAnnotation] |};
     Job_Status := {| Status_State := {| Shards := states |} |} |}.

Definition order1 : ContractSubmittedEvent :=
  {| cse_OrderId := "order-1";
     cse_Spec := {| Image := "ubuntu"; ExecutionCount := 0; Annotations := [] |} |}.

Definition tracked (id : string) : BacalhauJobRunningEvent :=
  JobCreated order1 (snapshot id 0 []).

(** A remote that accepts every submission under the identifier "job-1"
    and lists the given snapshots. *)
Definition remote_listing (bacjobs : list Job) : xRunner :=
  {| Client := {| publicapi.Submit_response :=
                    fun j => (Some (with_Spec (snapshot "job-1" 1 []) (Job_Spec j)), None);
                  publicapi.List_response := fun _ => (bacjobs, None) |} |}.

(** A remote that is unreachable: a submission hands back an empty job and
    an error, a listing runs into its deadline. *)
Definition remote_down : xRunner :=
  {| Client := {| publicapi.Submit_response :=
                    fun _ => (Some NewJob, Some "connection refused"%string);
                  publicapi.List_response :=
                    fun _ => ([], Some "context deadline exceeded"%string) |} |}.

(** A remote that lists the given snapshots and takes no submission. *)
Definition remote_read_only (bacjobs : list Job) : xRunner :=
  {| Client := {| publicapi.Submit_response := fun _ => (None, Some "forbidden"%string);
                  publicapi.List_response := fun _ => (bacjobs, None) |} |}.

(** totalShards = 3, all three completed. *)
Definition three_completed : Job :=
  snapshot "job-1" 3
    [shard 0 JobStateCompleted; shard 1 JobStateCompleted; shard 2 JobStateCompleted].

(** totalShards = 2, one shard completed and one errored. *)
Definition one_completed_one_errored : Job :=
  snapshot "job-1" 2 [shard 0 JobStateCompleted; shard 1 JobStateError].

(** totalShards = 2, one shard completed and one still executing. *)
Definition one_still_executing : Job :=
  snapshot "job-1" 2 [shard 0 JobStateCompleted; shard 1 JobStateRunning].

(** ** The classification as a function of the first matching snapshot *)

(** The first snapshot of the listing whose identifier is [id]. *)
Definition first_match (id : string) (bacjobs : list Job) : option Job :=
  find (fun b => String.eqb (ID (Job_Metadata b)) id) bacjobs.

Inductive Verdict : Type :=
| StillRunning
| JobCompleted
| JobFailed
| UnknownState.

Section Classification.

Context {lib : Bacalhau}.

Definition still_running (b : Job) : bool :=
  let r := WaitForTerminalStates (GetJobTotalExecutionCount b) (Status_State (Job_Status b)) in
  negb (fst r) || negb (is_nil (snd r)).

Definition complete (b : Job) : bool :=
  let r := WaitForJobStates [(JobStateCompleted, GetJobTotalExecutionCount b)]
             (Status_State (Job_Status b)) in
  fst r && is_nil (snd r).

Definition has_errors (b : Job) : bool :=
  let r := WaitThrowErrors [JobStateError] (Status_State (Job_Status b)) in
  negb (fst r) || negb (is_nil (snd r)).

(** The [if]/[else if] chain of lines 87-97. *)
Definition verdict (b : Job) : Verdict :=
  if still_running b then StillRunning
  else if complete b then JobCompleted
  else if has_errors b then JobFailed
  else UnknownState.

Definition classify (bacjobs : list Job) (j : BacalhauJobRunningEvent) : option Verdict :=
  option_map verdict (first_match (JobID j) bacjobs).

Definition completed_of (bacjobs : list Job) (j : BacalhauJobRunningEvent)
  : list BacalhauJobCompletedEvent :=
  match classify bacjobs j with
  | Some JobCompleted => [Completed j]
  | _ => []
  end.

Definition failed_of (bacjobs : list Job) (j : BacalhauJobRunningEvent)
  : list BacalhauJobFailedEvent :=
  match classify bacjobs j with
  | Some JobFailed => [Failed j]
  | _ => []
  end.

End Classification.

(** ** Reading a trace of effects *)

(** The jobs handed to [Client.Submit], in order. *)
Definition submissions (t : list Effect) : list Job :=
  flat_map (fun e => match e with
                     | Submitted j => [j]
                     | _ => []
                     end) t.

(** The requests handed to [Client.List], in order. *)
Definition listings (t : list Effect) : list ListRequest :=
  flat_map (fun e => match e with
                     | Listed req => [req]
                     | _ => []
                     end) t.

Definition is_log (e : Effect) : bool :=
  match e with
  | Logged _ _ _ => true
  | _ => false
  end.

(** ** The test doubles, lines 115-163 *)

(** The type assertions [job.(BacalhauJobCompletedEvent)] and
    [job.(BacalhauJobFailedEvent)] of lines 129 and 137. Whether the value
    behind a running handle also implements the other event interface is
    settled by the event types, which are declared outside bacalhau.go, so
    it is taken as given; [None] is the assertion that fails, on which the
    single-value form panics. *)
Class EventAssertions : Type := {
  as_Completed : BacalhauJobRunningEvent -> option BacalhauJobCompletedEvent;
  as_Failed : BacalhauJobRunningEvent -> option BacalhauJobFailedEvent
}.

Definition RunnerCreateHandler : Type :=
  ContractSubmittedEvent -> M (Outcome (option BacalhauJobRunningEvent * option error)).

Definition RunnerFindCompletedHandler : Type :=
  list BacalhauJobRunningEvent
  -> M (Outcome (list BacalhauJobCompletedEvent * list BacalhauJobFailedEvent)).

Definition SuccessfulCreate : RunnerCreateHandler :=
  fun cse => ret (Returned (Some (JobCreated cse NewJob), None)).

Definition ErrorCreate : RunnerCreateHandler :=
  fun cse => ret (Returned (None, Some "error creating job"%string)).

(** The loops of lines 128-130 and 136-138: every handle is asserted to the
    target interface and appended. *)
Fixpoint assert_each {A : Type} (assertion : BacalhauJobRunningEvent -> option A)
         (jobs : list BacalhauJobRunningEvent) (acc : list A) : Outcome (list A) :=
  match jobs with
  | [] => Returned acc
  | job :: rest =>
    match assertion job with
    | Some a => assert_each assertion rest (acc ++ [a])
    | None => Panicked
    end
  end.

Section Doubles.

Context {ev : EventAssertions}.

Definition SuccssfulFind : RunnerFindCompletedHandler :=
  fun jobs =>
    ret (match assert_each as_Completed jobs [] with
         | Returned completed => Returned (completed, [])
         | Panicked => Panicked
         end).

Definition FailedFind : RunnerFindCompletedHandler :=
  fun jobs =>
    ret (match assert_each as_Failed jobs [] with
         | Returned failed => Returned ([], failed)
         | Panicked => Panicked
         end).

(** A handler that is not set is a nil func. *)
Record mockRunner : Type := {
  CreateHandler : option RunnerCreateHandler;
  FindCompletedHandler : option RunnerFindCompletedHandler
}.

(** [mockRunner.Create], lines 148-154. *)
Definition mock_Create (mock : mockRunner) (job : ContractSubmittedEvent)
  : M (Outcome (option BacalhauJobRunningEvent * option error)) :=
  match CreateHandler mock with
  | Some h => h job
  | None => SuccessfulCreate job
  end.

(** [mockRunner.FindCompleted], lines 157-163. *)
Definition mock_FindCompleted (mock : mockRunner) (jobs : list BacalhauJobRunningEvent)
  : M (Outcome (list BacalhauJobCompletedEvent * list BacalhauJobFailedEvent)) :=
  match FindCompletedHandler mock with
  | Some h => h jobs
  | None => SuccssfulFind jobs
  end.

End Doubles.

(** Event types under which a running handle passes both assertions, and
    event types under which it passes neither. *)
Definition events_one_type : EventAssertions :=
  {| as_Completed := fun j => Some (Completed j);
     as_Failed := fun j => Some (Failed j) |}.

Definition events_distinct_types : EventAssertions :=
  {| as_Completed := fun _ => None;
     as_Failed := fun _ => None |}.

(** totalShards = 2, only one shard reported so far, and that one errored. *)
Definition one_of_two_reported : Job :=
  snapshot "job-1" 2 [shard 0 JobStateError].

(** totalShards = 1, two shards reported, both completed. *)
Definition two_completed_of_one : Job :=
  snapshot "job-1" 1 [shard 0 JobStateCompleted; shard 1 JobStateCompleted].

(** totalShards = 1, a completed shard and an errored one reported. *)
Definition completed_and_errored_of_one : Job :=
  snapshot "job-1" 1 [shard 0 JobStateCompleted; shard 1 JobStateError].

(** A handle of another order on the same remote job. *)
Definition order2 : ContractSubmittedEvent :=
  {| cse_OrderId := "order-2";
     cse_Spec := {| Image := "alpine"; ExecutionCount := 0; Annotations := ["gpu"%string] |} |}.

Definition tracked2 (id : string) : BacalhauJobRunningEvent :=
  JobCreated order2 (snapshot id 0 []).

(** ** Results of the monadic operations *)

Lemma value_bind {A B : Type} (m : M A) (f : A -> M B) :
  value (bind m f) = value (f (value m)).
Proof.
  unfold value, bind. destruct m as [a t1]; simpl.
  destruct (f a) as [b t2]; reflexivity.
Qed.

Lemma effects_bind {A B : Type} (m : M A) (f : A -> M B) :
  effects (bind m f) = effects m ++ effects (f (value m)).
Proof.
  unfold effects, value, bind. destruct m as [a t1]; simpl.
  destruct (f a) as [b t2]; reflexivity.
Qed.

Lemma value_ret {A : Type} (a : A) : value (ret a) = a.
Proof. reflexivity. Qed.

Lemma effects_ret {A : Type} (a : A) : effects (ret a) = [].
Proof. reflexivity. Qed.

Section Loops.

Context {lib : Bacalhau}.

Lemma first_match_cons (id : string) (b : Job) (rest : list Job) :
  first_match id (b :: rest) =
  if String.eqb (ID (Job_Metadata b)) id then Some b else first_match id rest.
Proof. reflexivity. Qed.

(** One turn of the outer loop appends what the first matching snapshot
    says about the handle, and nothing else. *)
Lemma scan_value (j : BacalhauJobRunningEvent) (bacjobs : list Job) (acc : Results) :
  value (scan j bacjobs acc) =
  (fst acc ++ completed_of bacjobs j, snd acc ++ failed_of bacjobs j).
Proof.
  induction bacjobs as [|b rest IH].
  - destruct acc as [c f]; simpl. now rewrite !app_nil_r.
  - unfold completed_of, failed_of, classify in *.
    rewrite first_match_cons. simpl scan.
    destruct (String.eqb (ID (Job_Metadata b)) (JobID j)); simpl negb; cbv iota.
    + unfold option_map, verdict, still_running, complete, has_errors.
      destruct (WaitForTerminalStates _ _) as [ok1 e1]; simpl fst; simpl snd.
      destruct (negb ok1 || negb (is_nil e1)).
      { destruct acc; unfold value; simpl. now rewrite !app_nil_r. }
      destruct (WaitForJobStates _ _) as [ok2 e2]; simpl fst; simpl snd.
      destruct (ok2 && is_nil e2).
      { unfold value; simpl. now rewrite app_nil_r. }
      destruct (WaitThrowErrors _ _) as [ok3 e3]; simpl fst; simpl snd.
      destruct (negb ok3 || negb (is_nil e3)).
      { unfold value; simpl. now rewrite app_nil_r. }
      destruct acc; unfold value; simpl. now rewrite !app_nil_r.
    + exact IH.
Qed.

Lemma each_job_value (jobs : list BacalhauJobRunningEvent) (bacjobs : list Job)
      (acc : Results) :
  value (each_job jobs bacjobs acc) =
  (fst acc ++ flat_map (completed_of bacjobs) jobs,
   snd acc ++ flat_map (failed_of bacjobs) jobs).
Proof.
  revert acc. induction jobs as [|j rest IH]; intros acc.
  - destruct acc; simpl. now rewrite !app_nil_r.
  - simpl each_job. rewrite value_bind, IH, scan_value. simpl.
    now rewrite <- !app_assoc.
Qed.

(** The listing decides the result: nothing on a failed query, the
    verdicts of the first matches otherwise. *)
Lemma FindCompleted_value (runner : xRunner) (jobs : list BacalhauJobRunningEvent) :
  value (FindCompleted runner jobs) =
  match publicapi.List_response (Client runner) list_request with
  | (_, Some _) => ([], [])
  | (bacjobs, None) =>
    (flat_map (completed_of bacjobs) jobs, flat_map (failed_of bacjobs) jobs)
  end.
Proof.
  unfold FindCompleted, publicapi.List.
  rewrite !value_bind. simpl value at 2.
  destruct (publicapi.List_response (Client runner) list_request) as [bacjobs [err|]].
  - reflexivity.
  - now rewrite each_job_value.
Qed.

Lemma in_completed_of (bacjobs : list Job) (jobs : list BacalhauJobRunningEvent)
      (c : BacalhauJobCompletedEvent) :
  In c (flat_map (completed_of bacjobs) jobs) <->
  exists j, In j jobs /\ c = Completed j /\ classify bacjobs j = Some JobCompleted.
Proof.
  rewrite in_flat_map. unfold completed_of. split.
  - intros [j [Hj Hc]]. exists j.
    destruct (classify bacjobs j) as [[| | |]|]; simpl in Hc; try contradiction.
    destruct Hc as [<-|[]]. auto.
  - intros [j [Hj [-> Hv]]]. exists j. rewrite Hv. simpl. auto.
Qed.

Lemma in_failed_of (bacjobs : list Job) (jobs : list BacalhauJobRunningEvent)
      (f : BacalhauJobFailedEvent) :
  In f (flat_map (failed_of bacjobs) jobs) <->
  exists j, In j jobs /\ f = Failed j /\ classify bacjobs j = Some JobFailed.
Proof.
  rewrite in_flat_map. unfold failed_of. split.
  - intros [j [Hj Hf]]. exists j.
    destruct (classify bacjobs j) as [[| | |]|]; simpl in Hf; try contradiction.
    destruct Hf as [<-|[]]. auto.
  - intros [j [Hj [-> Hv]]]. exists j. rewrite Hv. simpl. auto.
Qed.

(** Membership in the two results, in terms of the listing. *)
Lemma in_completed_list (runner : xRunner) (jobs : list BacalhauJobRunningEvent)
      (j : BacalhauJobRunningEvent) :
  In (Completed j) (completed_list (FindCompleted runner jobs)) <->
  In j jobs /\
  snd (publicapi.List_response (Client runner) list_request) = None /\
  classify (fst (publicapi.List_response (Client runner) list_request)) j
    = Some JobCompleted.
Proof.
  unfold completed_list. rewrite FindCompleted_value.
  destruct (publicapi.List_response (Client runner) list_request) as [bacjobs [err|]];
    simpl.
  - split; [contradiction | intros [_ [H _]]; discriminate].
  - rewrite in_completed_of. split.
    + intros [j' [Hj [Heq Hv]]]. injection Heq as ->. auto.
    + intros [Hj [_ Hv]]. exists j. auto.
Qed.

Lemma in_failed_list (runner : xRunner) (jobs : list BacalhauJobRunningEvent)
      (j : BacalhauJobRunningEvent) :
  In (Failed j) (failed_list (FindCompleted runner jobs)) <->
  In j jobs /\
  snd (publicapi.List_response (Client runner) list_request) = None /\
  classify (fst (publicapi.List_response (Client runner) list_request)) j
    = Some JobFailed.
Proof.
  unfold failed_list. rewrite FindCompleted_value.
  destruct (publicapi.List_response (Client runner) list_request) as [bacjobs [err|]];
    simpl.
  - split; [contradiction | intros [_ [H _]]; discriminate].
  - rewrite in_failed_of. split.
    + intros [j' [Hj [Heq Hv]]]. injection Heq as ->. auto.
    + intros [Hj [_ Hv]]. exists j. auto.
Qed.

End Loops.

(** ** Create *)

Section CreateFacts.

Context {lib : Bacalhau}.

(** When the defaults are built and the remote accepts the job, [Create]
    hands back the handle of the order and no error. *)
Lemma Create_accepted (r : xRunner) (e : ContractSubmittedEvent) (job0 : Job) :
  NewJobWithSaneProductionDefaults = (Some job0, None) ->
  (forall j, snd (publicapi.Submit_response (Client r) j) = None) ->
  (forall j, fst (publicapi.Submit_response (Client r) j) <> None) ->
  exists h, value (Create r e) = Returned (Some h, None) /\ OrderId_of h = cse_OrderId e.
Proof.
  intros Hnew Hok Hjob. unfold Create. rewrite Hnew.
  unfold publicapi.Submit. rewrite !value_bind. simpl value at 2.
  match goal with
  | |- context [publicapi.Submit_response (Client r) ?j] =>
    specialize (Hok j); specialize (Hjob j);
    destruct (publicapi.Submit_response (Client r) j) as [[job'|] err]
  end; simpl in Hok, Hjob; [|congruence].
  subst err. exists (JobCreated e job'). split; reflexivity.
Qed.

(** When the remote answers a submission with a job record and an error,
    [Create] returns the handle built from that record next to the wrapped
    error. *)
Lemma Create_refused (r : xRunner) (e : ContractSubmittedEvent)
      (job0 job' : Job) (err : error) :
  NewJobWithSaneProductionDefaults = (Some job0, None) ->
  (forall j, publicapi.Submit_response (Client r) j = (Some job', Some err)) ->
  value (Create r e)
    = Returned (Some (JobCreated e job'),
                Some (errors_Wrap err "error submitting Bacalhau job")).
Proof.
  intros Hnew Hsub. unfold Create. rewrite Hnew.
  unfold publicapi.Submit. rewrite !value_bind. simpl value at 2.
  rewrite Hsub. reflexivity.
Qed.

(** When the remote answers a submission with a nil job and an error,
    reading [job.Metadata.ID] for the log entry panics. *)
Lemma Create_refused_nil_job (r : xRunner) (e : ContractSubmittedEvent)
      (job0 : Job) (err : error) :
  NewJobWithSaneProductionDefaults = (Some job0, None) ->
  (forall j, publicapi.Submit_response (Client r) j = (None, Some err)) ->
  value (Create r e) = Panicked.
Proof.
  intros Hnew Hsub. unfold Create. rewrite Hnew.
  unfold publicapi.Submit. rewrite !value_bind. simpl value at 2.
  rewrite Hsub. reflexivity.
Qed.

(** C9: when building the default job fails, [Create] returns a nil handle
    with the error wrapped in "error creating Bacalhau job", and performs
    no submission (it performs no effect at all). *)
Theorem Create_defaults_failure (r : xRunner) (e : ContractSubmittedEvent)
        (job : option Job) (err : error) :
  NewJobWithSaneProductionDefaults = (job, Some err) ->
  value (Create r e)
    = Returned (None, Some (errors_Wrap err "error creating Bacalhau job")) /\
  effects (Create r e) = [] /\
  forall j, ~ In (Submitted j) (effects (Create r e)).
Proof.
  intros Hnew. unfold Create. rewrite Hnew.
  repeat split. intros j [].
Qed.

End CreateFacts.

(** C1: the order event [order1] against a remote that refuses the
    submission. [Create] comes back with a handle and with a non-nil error
    at once: after wrapping the submission error (line 49) it goes on to
    line 53 and returns [e.JobCreated(job)] next to it. *)
Theorem Create_refused_returns_handle_and_error :
  value (Create (lib := spec_bacalhau) remote_down order1) =
  Returned (Some (JobCreated order1 NewJob),
            Some "error submitting Bacalhau job: connection refused"%string).
Proof.
  apply (Create_refused (lib := spec_bacalhau) remote_down order1 NewJob NewJob
           "connection refused"%string).
  - reflexivity.
  - intros j. reflexivity.
Qed.

Lemma Create_defaults_failure_witness :
  @NewJobWithSaneProductionDefaults failing_defaults = (None, Some "merge failed"%string) /\
  value (Create (lib := failing_defaults) remote_down order1)
    = Returned (None, Some "error creating Bacalhau job: merge failed"%string) /\
  effects (Create (lib := failing_defaults) remote_down order1) = [] /\
  forall j, ~ In (Submitted j) (effects (Create (lib := failing_defaults) remote_down order1)).
Proof.
  split; [reflexivity|].
  apply (@Create_defaults_failure failing_defaults remote_down order1 None "merge failed"%string).
  reflexivity.
Defined.

(** ** FindCompleted: properties that hold for any Bacalhau library *)

Section FindCompletedFacts.

Context {lib : Bacalhau}.

Lemma first_match_none (id : string) (bacjobs : list Job) :
  (forall b, In b bacjobs -> ID (Job_Metadata b) <> id) ->
  first_match id bacjobs = None.
Proof.
  intros Hno. induction bacjobs as [|b rest IH]; [reflexivity|].
  rewrite first_match_cons.
  destruct (String.eqb_spec (ID (Job_Metadata b)) id) as [Heq|_].
  - exfalso. apply (Hno b); simpl; auto.
  - apply IH. intros b' Hb'. apply Hno. simpl; auto.
Qed.

Lemma first_match_skip (id : string) (pre : list Job) (b : Job) (post : list Job) :
  (forall x, In x pre -> ID (Job_Metadata x) <> id) ->
  ID (Job_Metadata b) = id ->
  first_match id (pre ++ b :: post) = Some b.
Proof.
  intros Hpre Hb. induction pre as [|x pre IH]; simpl app.
  - rewrite first_match_cons. now rewrite (proj2 (String.eqb_eq _ _) Hb).
  - rewrite first_match_cons.
    destruct (String.eqb_spec (ID (Job_Metadata x)) id) as [Heq|_].
    + exfalso. apply (Hpre x); simpl; auto.
    + apply IH. intros y Hy. apply Hpre. simpl; auto.
Qed.

(** C4: when the remote list query fails (a deadline that runs out is such
    a failure), [FindCompleted] logs the error and returns two empty
    lists; its result carries no error value. *)
Theorem FindCompleted_query_failure (runner : xRunner)
        (jobs : list BacalhauJobRunningEvent) (bacjobs : list Job) (err : error) :
  publicapi.List_response (Client runner) list_request = (bacjobs, Some err) ->
  value (FindCompleted runner jobs) = ([], []) /\
  effects (FindCompleted runner jobs) =
    [Logged Debug [Int "jobs" (Z.of_nat (List.length jobs))] "Looking at job states";
     Listed list_request;
     Logged Error [Err (Some err)] ""].
Proof.
  intros Hq. unfold FindCompleted, publicapi.List.
  rewrite !value_bind, !effects_bind. simpl value. rewrite Hq. split; reflexivity.
Qed.

(** C8: two invocations on the same handles that receive the same answer
    from the remote listing return the same classification (and perform
    the same effects). *)
Theorem FindCompleted_same_listing (r1 r2 : xRunner)
        (jobs : list BacalhauJobRunningEvent) :
  publicapi.List_response (Client r1) list_request
    = publicapi.List_response (Client r2) list_request ->
  FindCompleted r1 jobs = FindCompleted r2 jobs.
Proof.
  intros Hsame. unfold FindCompleted, publicapi.List. now rewrite Hsame.
Qed.

(** C3: every completed event is the Completed() of an input handle, every
    failed event is the Failed() of an input handle, and no handle has its
    outcome in both results. *)
Theorem FindCompleted_subsets_disjoint (runner : xRunner)
        (jobs : list BacalhauJobRunningEvent) :
  (forall c, In c (completed_list (FindCompleted runner jobs)) ->
             exists j, In j jobs /\ c = Completed j) /\
  (forall f, In f (failed_list (FindCompleted runner jobs)) ->
             exists j, In j jobs /\ f = Failed j) /\
  (forall j, ~ (In (Completed j) (completed_list (FindCompleted runner jobs)) /\
                In (Failed j) (failed_list (FindCompleted runner jobs)))).
Proof.
  repeat split.
  - intros [j] Hc. apply in_completed_list in Hc. exists j. tauto.
  - intros [j] Hf. apply in_failed_list in Hf. exists j. tauto.
  - intros j [Hc Hf].
    apply in_completed_list in Hc. apply in_failed_list in Hf.
    destruct Hc as [_ [_ Hc]]. destruct Hf as [_ [_ Hf]]. congruence.
Qed.

(** C7: a handle whose identifier equals that of no listed snapshot is in
    neither result. *)
Theorem FindCompleted_unmatched (runner : xRunner)
        (jobs : list BacalhauJobRunningEvent) (j : BacalhauJobRunningEvent) :
  (forall b, In b (fst (publicapi.List_response (Client runner) list_request)) ->
             ID (Job_Metadata b) <> JobID j) ->
  ~ In (Completed j) (completed_list (FindCompleted runner jobs)) /\
  ~ In (Failed j) (failed_list (FindCompleted runner jobs)).
Proof.
  intros Hno. apply first_match_none in Hno.
  split; intros Hin;
    [apply in_completed_list in Hin | apply in_failed_list in Hin];
    destruct Hin as [_ [_ Hv]]; unfold classify in Hv; rewrite Hno in Hv;
    discriminate.
Qed.

Lemma outcome_length (bacjobs : list Job) (j : BacalhauJobRunningEvent) :
  (List.length (completed_of bacjobs j) + List.length (failed_of bacjobs j) <= 1)%nat.
Proof.
  unfold completed_of, failed_of.
  destruct (classify bacjobs j) as [[| | |]|]; simpl; lia.
Qed.

Lemma outcomes_length (bacjobs : list Job) (jobs : list BacalhauJobRunningEvent) :
  (List.length (flat_map (completed_of bacjobs) jobs)
   + List.length (flat_map (failed_of bacjobs) jobs) <= List.length jobs)%nat.
Proof.
  induction jobs as [|j rest IH]; simpl; [lia|].
  rewrite !length_app. pose proof (outcome_length bacjobs j). lia.
Qed.

(** C10: each handle contributes at most one outcome, decided by the first
    snapshot with its identifier alone (what follows that snapshot in
    the listing, duplicates included, is not looked at), and the two
    results together are no longer than the input. *)
Theorem FindCompleted_at_most_one_outcome :
  (forall j bacjobs acc,
      (List.length (fst (value (scan j bacjobs acc)))
       + List.length (snd (value (scan j bacjobs acc)))
       <= List.length (fst acc) + List.length (snd acc) + 1)%nat) /\
  (forall j pre b post acc,
      (forall x, In x pre -> ID (Job_Metadata x) <> JobID j) ->
      ID (Job_Metadata b) = JobID j ->
      scan j (pre ++ b :: post) acc = scan j [b] acc) /\
  (forall runner jobs,
      (List.length (completed_list (FindCompleted runner jobs))
       + List.length (failed_list (FindCompleted runner jobs))
       <= List.length jobs)%nat).
Proof.
  split; [|split].
  - intros j bacjobs acc. rewrite scan_value. simpl. rewrite !length_app.
    pose proof (outcome_length bacjobs j). lia.
  - intros j pre b post acc Hpre Hb.
    induction pre as [|x pre IH]; simpl app.
    + simpl scan. rewrite (proj2 (String.eqb_eq _ _) Hb). reflexivity.
    + simpl scan at 1.
      destruct (String.eqb_spec (ID (Job_Metadata x)) (JobID j)) as [Heq|_].
      * exfalso. apply (Hpre x); simpl; auto.
      * simpl negb. cbv iota. apply IH. intros y Hy. apply Hpre. simpl; auto.
  - intros runner jobs. unfold completed_list, failed_list.
    rewrite FindCompleted_value.
    destruct (publicapi.List_response (Client runner) list_request) as [bacjobs [err|]];
      simpl; [lia|]. apply outcomes_length.
Qed.

(** The last test of the chain: a matched snapshot that passes the
    terminal-state test and does not pass the completion test puts its
    handle in the failed result exactly when the error-state test returns
    false or returns an error. *)
Lemma failure_test_decides (runner : xRunner) (jobs : list BacalhauJobRunningEvent)
      (j : BacalhauJobRunningEvent) (bacjobs : list Job) (b : Job) :
  publicapi.List_response (Client runner) list_request = (bacjobs, None) ->
  In j jobs ->
  first_match (JobID j) bacjobs = Some b ->
  WaitForTerminalStates (GetJobTotalExecutionCount b) (Status_State (Job_Status b))
    = (true, None) ->
  WaitForJobStates [(JobStateCompleted, GetJobTotalExecutionCount b)]
    (Status_State (Job_Status b)) <> (true, None) ->
  (In (Failed j) (failed_list (FindCompleted runner jobs)) <->
   fst (WaitThrowErrors [JobStateError] (Status_State (Job_Status b))) = false \/
   snd (WaitThrowErrors [JobStateError] (Status_State (Job_Status b))) <> None).
Proof.
  intros Hq Hj Hm Hterm Hnc.
  rewrite in_failed_list, Hq. simpl fst; simpl snd.
  unfold classify. rewrite Hm. simpl option_map.
  unfold verdict, still_running, complete, has_errors.
  rewrite Hterm. simpl.
  destruct (WaitForJobStates _ _) as [[|] [e2|]]; simpl; try congruence;
    destruct (WaitThrowErrors _ _) as [[|] [e3|]]; simpl;
    (split; [intros [_ [_ Hv]]; try discriminate; auto; right; discriminate
            | intros [Hf|Hs]; try discriminate; try congruence; auto]).
Qed.

End FindCompletedFacts.

Section Verdicts.

Context {lib : Bacalhau}.

Lemma classify_first_match (bacjobs : list Job) (j : BacalhauJobRunningEvent) (b : Job) :
  first_match (JobID j) bacjobs = Some b ->
  classify bacjobs j = Some (verdict b).
Proof. intros Hm. unfold classify. now rewrite Hm. Qed.

(** A handle whose first matching snapshot does not pass the
    terminal-state test is reported in neither result. *)
Lemma still_running_omitted (runner : xRunner) (jobs : list BacalhauJobRunningEvent)
      (j : BacalhauJobRunningEvent) (b : Job) :
  first_match (JobID j) (fst (publicapi.List_response (Client runner) list_request))
    = Some b ->
  still_running b = true ->
  ~ In (Completed j) (completed_list (FindCompleted runner jobs)) /\
  ~ In (Failed j) (failed_list (FindCompleted runner jobs)).
Proof.
  intros Hm Hrun.
  split; intros Hin;
    [apply in_completed_list in Hin | apply in_failed_list in Hin];
    destruct Hin as [_ [_ Hv]];
    rewrite (classify_first_match _ _ _ Hm) in Hv;
    unfold verdict in Hv; rewrite Hrun in Hv; discriminate.
Qed.

(** A handle whose first matching snapshot passes the terminal-state test
    and the completion test is reported as completed. *)
Lemma complete_reported (runner : xRunner) (jobs : list BacalhauJobRunningEvent)
      (j : BacalhauJobRunningEvent) (bacjobs : list Job) (b : Job) :
  publicapi.List_response (Client runner) list_request = (bacjobs, None) ->
  In j jobs ->
  first_match (JobID j) bacjobs = Some b ->
  still_running b = false ->
  complete b = true ->
  In (Completed j) (completed_list (FindCompleted runner jobs)).
Proof.
  intros Hq Hj Hm Hrun Hc.
  apply in_completed_list. rewrite Hq. simpl.
  rewrite (classify_first_match _ _ _ Hm). unfold verdict.
  rewrite Hrun, Hc. auto.
Qed.

End Verdicts.

(** ** FindCompleted over the Bacalhau functions as the specification
    describes them *)

Lemma count_state_le_length (s : JobStateType) (shards : list JobShardState) :
  count_state s shards <= Z.of_nat (List.length shards).
Proof.
  unfold count_state. apply inj_le.
  induction shards as [|sh rest IH]; simpl; [lia|].
  destruct (JobStateType_eqb (State sh) s); simpl; lia.
Qed.

Lemma all_terminal_forallb (shards : list JobShardState) :
  (forall sh, In sh shards -> IsTerminal (State sh) = true) ->
  forallb (fun sh => IsTerminal (State sh)) shards = true.
Proof. intros Hall. apply forallb_forall. exact Hall. Qed.

Lemma not_all_terminal_forallb (shards : list JobShardState) :
  (exists sh, In sh shards /\ IsTerminal (State sh) = false) ->
  forallb (fun sh => IsTerminal (State sh)) shards = false.
Proof.
  intros [sh [Hin Hnt]].
  destruct (forallb _ shards) eqn:Hall; [|reflexivity].
  rewrite forallb_forall in Hall. specialize (Hall sh Hin). congruence.
Qed.

(** C5: a handle whose matching snapshot has totalShards >= 1, every shard
    in a terminal state and as many completed shards as totalShards is
    reported as completed. *)
Theorem FindCompleted_all_shards_completed (runner : xRunner)
        (jobs : list BacalhauJobRunningEvent) (j : BacalhauJobRunningEvent)
        (bacjobs : list Job) (b : Job) :
  publicapi.List_response (Client runner) list_request = (bacjobs, None) ->
  In j jobs ->
  first_match (JobID j) bacjobs = Some b ->
  1 <= GetJobTotalExecutionCount (Bacalhau := spec_bacalhau) b ->
  (forall sh, In sh (Shards (Status_State (Job_Status b))) -> IsTerminal (State sh) = true) ->
  count_state JobStateCompleted (Shards (Status_State (Job_Status b)))
    = GetJobTotalExecutionCount (Bacalhau := spec_bacalhau) b ->
  In (Completed j) (completed_list (FindCompleted (lib := spec_bacalhau) runner jobs)).
Proof.
  intros Hq Hj Hm _ Hterm Hcount.
  apply (complete_reported runner jobs j bacjobs b Hq Hj Hm).
  - unfold still_running. simpl.
    unfold spec_WaitForTerminalStates. simpl.
    rewrite (all_terminal_forallb _ Hterm).
    pose proof (count_state_le_length JobStateCompleted (Shards (Status_State (Job_Status b)))) as Hle.
    simpl in Hcount. rewrite Hcount in Hle.
    apply Z.leb_le in Hle. unfold spec_GetJobTotalExecutionCount in *.
    now rewrite Hle.
  - unfold complete. simpl. simpl in Hcount. rewrite Hcount.
    now rewrite Z.eqb_refl.
Qed.

Lemma FindCompleted_all_shards_completed_witness :
  In (Completed (tracked "job-1"))
     (completed_list (FindCompleted (lib := spec_bacalhau)
                        (remote_listing [three_completed]) [tracked "job-1"])).
Proof.
  apply (FindCompleted_all_shards_completed
           (remote_listing [three_completed]) [tracked "job-1"] (tracked "job-1")
           [three_completed] three_completed).
  - reflexivity.
  - simpl. auto.
  - reflexivity.
  - simpl. unfold spec_GetJobTotalExecutionCount. simpl. lia.
  - intros sh Hin. simpl in Hin.
    destruct Hin as [<-|[<-|[<-|[]]]]; reflexivity.
  - reflexivity.
Defined.

(** C6: a handle whose matching snapshot shows the job still executing,
    that is, not all of its shards in a terminal state, is in neither
    result: either a reported shard is not terminal, or fewer shards are
    reported than the job has. *)
Theorem FindCompleted_still_executing (runner : xRunner)
        (jobs : list BacalhauJobRunningEvent) (j : BacalhauJobRunningEvent) (b : Job) :
  first_match (JobID j) (fst (publicapi.List_response (Client runner) list_request))
    = Some b ->
  (exists sh, In sh (Shards (Status_State (Job_Status b))) /\
              IsTerminal (State sh) = false) \/
  Z.of_nat (List.length (Shards (Status_State (Job_Status b))))
    < GetJobTotalExecutionCount (Bacalhau := spec_bacalhau) b ->
  ~ In (Completed j) (completed_list (FindCompleted (lib := spec_bacalhau) runner jobs)) /\
  ~ In (Failed j) (failed_list (FindCompleted (lib := spec_bacalhau) runner jobs)).
Proof.
  intros Hm Hexec.
  apply (still_running_omitted runner jobs j b Hm).
  unfold still_running. simpl. unfold spec_WaitForTerminalStates. simpl.
  destruct Hexec as [Hshard|Hfew].
  - rewrite (not_all_terminal_forallb _ Hshard).
    now rewrite andb_false_r.
  - simpl in Hfew. apply Z.leb_gt in Hfew.
    unfold spec_GetJobTotalExecutionCount in *. now rewrite Hfew.
Qed.

Lemma FindCompleted_still_executing_witness :
  (~ In (Completed (tracked "job-1"))
       (completed_list (FindCompleted (lib := spec_bacalhau)
                          (remote_listing [one_still_executing]) [tracked "job-1"])) /\
   ~ In (Failed (tracked "job-1"))
       (failed_list (FindCompleted (lib := spec_bacalhau)
                       (remote_listing [one_still_executing]) [tracked "job-1"]))) /\
  (~ In (Completed (tracked "job-1"))
       (completed_list (FindCompleted (lib := spec_bacalhau)
                          (remote_listing [one_of_two_reported]) [tracked "job-1"])) /\
   ~ In (Failed (tracked "job-1"))
       (failed_list (FindCompleted (lib := spec_bacalhau)
                       (remote_listing [one_of_two_reported]) [tracked "job-1"]))).
Proof.
  split.
  - apply (FindCompleted_still_executing
             (remote_listing [one_still_executing]) [tracked "job-1"] (tracked "job-1")
             one_still_executing).
    + reflexivity.
    + left. exists (shard 1 JobStateRunning). split; [simpl; auto | reflexivity].
  - apply (FindCompleted_still_executing
             (remote_listing [one_of_two_reported]) [tracked "job-1"] (tracked "job-1")
             one_of_two_reported).
    + reflexivity.
    + right. simpl. unfold spec_GetJobTotalExecutionCount. simpl. lia.
Defined.

(** A job of two shards, one completed and one errored, is reported as
    failed. *)
Lemma one_completed_one_errored_failed (runner : xRunner)
      (jobs : list BacalhauJobRunningEvent) (j : BacalhauJobRunningEvent)
      (bacjobs : list Job) (b : Job) (s1 s2 : JobShardState) :
  publicapi.List_response (Client runner) list_request = (bacjobs, None) ->
  In j jobs ->
  first_match (JobID j) bacjobs = Some b ->
  GetJobTotalExecutionCount (Bacalhau := spec_bacalhau) b = 2 ->
  Shards (Status_State (Job_Status b)) = [s1; s2] ->
  (State s1 = JobStateCompleted /\ State s2 = JobStateError) \/
  (State s1 = JobStateError /\ State s2 = JobStateCompleted) ->
  In (Failed j) (failed_list (FindCompleted (lib := spec_bacalhau) runner jobs)).
Proof.
  intros Hq Hj Hm Htotal Hshards Hstates.
  apply (failure_test_decides runner jobs j bacjobs b Hq Hj Hm).
  - rewrite Htotal. simpl. unfold spec_WaitForTerminalStates.
    rewrite Hshards. simpl.
    destruct Hstates as [[-> ->]|[-> ->]]; reflexivity.
  - rewrite Htotal. simpl. unfold spec_WaitForJobStates, count_state.
    rewrite Hshards. simpl.
    destruct Hstates as [[-> ->]|[-> ->]]; simpl; discriminate.
  - left. simpl. unfold spec_WaitThrowErrors.
    rewrite Hshards. simpl.
    destruct Hstates as [[-> ->]|[-> ->]]; reflexivity.
Qed.

(** C2: for any library, a matched snapshot that passes the terminal-state
    test and does not pass the completion test puts its handle in the failed
    result exactly when the error-state test returns false or returns an
    error; and with the functions as the specification describes them, a job
    with totalShards = 2, one shard completed and one errored, is reported
    as failed. *)
Theorem FindCompleted_failed_exactly_when :
  (forall (lib : Bacalhau) (runner : xRunner) (jobs : list BacalhauJobRunningEvent)
          (j : BacalhauJobRunningEvent) (bacjobs : list Job) (b : Job),
      publicapi.List_response (Client runner) list_request = (bacjobs, None) ->
      In j jobs ->
      first_match (JobID j) bacjobs = Some b ->
      WaitForTerminalStates (GetJobTotalExecutionCount b) (Status_State (Job_Status b))
        = (true, None) ->
      WaitForJobStates [(JobStateCompleted, GetJobTotalExecutionCount b)]
        (Status_State (Job_Status b)) <> (true, None) ->
      (In (Failed j) (failed_list (FindCompleted runner jobs)) <->
       fst (WaitThrowErrors [JobStateError] (Status_State (Job_Status b))) = false \/
       snd (WaitThrowErrors [JobStateError] (Status_State (Job_Status b))) <> None)) /\
  (forall (runner : xRunner) (jobs : list BacalhauJobRunningEvent)
          (j : BacalhauJobRunningEvent) (bacjobs : list Job) (b : Job)
          (s1 s2 : JobShardState),
      publicapi.List_response (Client runner) list_request = (bacjobs, None) ->
      In j jobs ->
      first_match (JobID j) bacjobs = Some b ->
      GetJobTotalExecutionCount (Bacalhau := spec_bacalhau) b = 2 ->
      Shards (Status_State (Job_Status b)) = [s1; s2] ->
      (State s1 = JobStateCompleted /\ State s2 = JobStateError) \/
      (State s1 = JobStateError /\ State s2 = JobStateCompleted) ->
      In (Failed j) (failed_list (FindCompleted (lib := spec_bacalhau) runner jobs))).
Proof.
  split.
  - intros lib. apply failure_test_decides.
  - apply one_completed_one_errored_failed.
Qed.

Lemma FindCompleted_failed_exactly_when_witness :
  (In (Failed (tracked "job-1"))
      (failed_list (FindCompleted (lib := spec_bacalhau)
                      (remote_listing [one_completed_one_errored]) [tracked "job-1"])) <->
   fst (WaitThrowErrors (Bacalhau := spec_bacalhau) [JobStateError]
          (Status_State (Job_Status one_completed_one_errored))) = false \/
   snd (WaitThrowErrors (Bacalhau := spec_bacalhau) [JobStateError]
          (Status_State (Job_Status one_completed_one_errored))) <> None) /\
  In (Failed (tracked "job-1"))
     (failed_list (FindCompleted (lib := spec_bacalhau)
                     (remote_listing [one_completed_one_errored]) [tracked "job-1"])).
Proof.
  split.
  - apply (proj1 FindCompleted_failed_exactly_when spec_bacalhau
             (remote_listing [one_completed_one_errored]) [tracked "job-1"]
             (tracked "job-1") [one_completed_one_errored] one_completed_one_errored).
    + reflexivity.
    + simpl. auto.
    + reflexivity.
    + reflexivity.
    + vm_compute. discriminate.
  - apply (proj2 FindCompleted_failed_exactly_when
             (remote_listing [one_completed_one_errored]) [tracked "job-1"]
             (tracked "job-1") [one_completed_one_errored] one_completed_one_errored
             (shard 0 JobStateCompleted) (shard 1 JobStateError)).
    + reflexivity.
    + simpl. auto.
    + reflexivity.
    + reflexivity.
    + reflexivity.
    + left. split; reflexivity.
Defined.

(** ** The general properties at concrete inputs *)

Lemma FindCompleted_query_failure_witness :
  publicapi.List_response (Client remote_down) list_request
    = ([], Some "context deadline exceeded"%string) /\
  value (FindCompleted (lib := spec_bacalhau) remote_down [tracked "job-1"]) = ([], []) /\
  effects (FindCompleted (lib := spec_bacalhau) remote_down [tracked "job-1"]) =
    [Logged Debug [Int "jobs" 1] "Looking at job states";
     Listed list_request;
     Logged Error [Err (Some "context deadline exceeded"%string)] ""].
Proof.
  split; [reflexivity|].
  apply (@FindCompleted_query_failure spec_bacalhau remote_down [tracked "job-1"]
           [] "context deadline exceeded"%string).
  reflexivity.
Defined.

Lemma FindCompleted_same_listing_witness :
  FindCompleted (lib := spec_bacalhau) (remote_listing [three_completed]) [tracked "job-1"]
  = FindCompleted (lib := spec_bacalhau) (remote_read_only [three_completed]) [tracked "job-1"].
Proof.
  apply (@FindCompleted_same_listing spec_bacalhau
           (remote_listing [three_completed]) (remote_read_only [three_completed])
           [tracked "job-1"]).
  reflexivity.
Defined.

Lemma FindCompleted_unmatched_witness :
  ~ In (Completed (tracked "job-2"))
      (completed_list (FindCompleted (lib := spec_bacalhau)
                         (remote_listing [three_completed]) [tracked "job-2"])) /\
  ~ In (Failed (tracked "job-2"))
      (failed_list (FindCompleted (lib := spec_bacalhau)
                      (remote_listing [three_completed]) [tracked "job-2"])).
Proof.
  apply (@FindCompleted_unmatched spec_bacalhau
           (remote_listing [three_completed]) [tracked "job-2"] (tracked "job-2")).
  intros b Hin. simpl in Hin. destruct Hin as [<-|[]]. simpl. discriminate.
Defined.

Lemma FindCompleted_at_most_one_outcome_witness :
  scan (lib := spec_bacalhau) (tracked "job-1")
       ([snapshot "job-0" 1 [shard 0 JobStateCompleted]]
          ++ one_completed_one_errored :: [three_completed]) ([], [])
  = scan (lib := spec_bacalhau) (tracked "job-1") [one_completed_one_errored] ([], []).
Proof.
  apply (proj1 (proj2 (@FindCompleted_at_most_one_outcome spec_bacalhau))
           (tracked "job-1") [snapshot "job-0" 1 [shard 0 JobStateCompleted]]
           one_completed_one_errored [three_completed] ([], [])).
  - intros x Hin. simpl in Hin. destruct Hin as [<-|[]]. simpl. discriminate.
  - reflexivity.
Defined.

(** ** Further properties of Create *)

Section CreateEffects.

Context {lib : Bacalhau}.


(** X2: [Create] submits at most once, and a job it submits carries the
    specification of the event with two annotations appended to the
    event's own: the system-wide tag, which is the tag [FindCompleted]
    lists by, and that tag joined to the Order Identifier by a dash. *)
Theorem Create_submits_tagged_job (r : xRunner) (e : ContractSubmittedEvent) :
  (List.length (submissions (effects (Create r e))) <= 1)%nat /\
  (forall j, In j (submissions (effects (Create r e))) ->
     Image (Job_Spec j) = Image (cse_Spec e) /\
     ExecutionCount (Job_Spec j) = ExecutionCount (cse_Spec e) /\
     Annotations (Job_Spec j) =
       Annotations (cse_Spec e)
       ++ [LilypadJobAnnotation;
           (LilypadJobAnnotation ++ "-" ++ cse_OrderId e)%string] /\
     includeTags list_request = [LilypadJobAnnotation]).
Proof.
  unfold Create.
  destruct NewJobWithSaneProductionDefaults as [[job0|] [err|]];
    try (simpl; split; [lia | intros j []]).
  match goal with
  | |- context [publicapi.Submit (Client r) ?j] => remember j as sub eqn:Hsub
  end.
  unfold publicapi.Submit, bind, tell, ret, effects.
  destruct (publicapi.Submit_response (Client r) sub) as [[job'|] err]; simpl;
    (split; [lia|]); intros j [<-|[]]; subst sub; repeat split.
Qed.


End CreateEffects.


Lemma Create_submits_tagged_job_witness :
  In (with_Annotations (with_Spec NewJob (cse_Spec order2))
        ["gpu"; "lilypad-job"; "lilypad-job-order-2"]%string)
     (submissions (effects (Create (lib := spec_bacalhau) (remote_listing []) order2))) /\
  Annotations (Job_Spec (with_Annotations (with_Spec NewJob (cse_Spec order2))
                           ["gpu"; "lilypad-job"; "lilypad-job-order-2"]%string))
  = Annotations (cse_Spec order2)
    ++ [LilypadJobAnnotation; (LilypadJobAnnotation ++ "-" ++ cse_OrderId order2)%string].
Proof.
  assert (Hin : In (with_Annotations (with_Spec NewJob (cse_Spec order2))
                      ["gpu"; "lilypad-job"; "lilypad-job-order-2"]%string)
                   (submissions (effects (Create (lib := spec_bacalhau)
                                            (remote_listing []) order2)))).
  { simpl. left. reflexivity. }
  split; [exact Hin|].
  exact (proj1 (proj2 (proj2 (proj2 (@Create_submits_tagged_job spec_bacalhau
                                       (remote_listing []) order2) _ Hin)))).
Defined.


(** ** Further properties of FindCompleted *)

Lemma only_logs_no_calls (t : list Effect) :
  Forall (fun e => is_log e = true) t ->
  submissions t = [] /\ listings t = [].
Proof.
  induction 1 as [|e t He _ [IHs IHl]]; [split; reflexivity|].
  destruct e; simpl in He; try discriminate. simpl. auto.
Qed.

Lemma submissions_app (t1 t2 : list Effect) :
  submissions (t1 ++ t2) = submissions t1 ++ submissions t2.
Proof. unfold submissions. apply flat_map_app. Qed.

Lemma listings_app (t1 t2 : list Effect) :
  listings (t1 ++ t2) = listings t1 ++ listings t2.
Proof. unfold listings. apply flat_map_app. Qed.

Section FindCompletedEffects.

Context {lib : Bacalhau}.

(** The inner loop looks at the first snapshot with the handle's identifier
    and at nothing else. *)
Lemma scan_first_match (j : BacalhauJobRunningEvent) (bacjobs : list Job) (acc : Results) :
  scan j bacjobs acc =
  match first_match (JobID j) bacjobs with
  | None => ret acc
  | Some b => scan j [b] acc
  end.
Proof.
  induction bacjobs as [|x rest IH]; [reflexivity|].
  rewrite first_match_cons. simpl scan at 1.
  destruct (String.eqb (ID (Job_Metadata x)) (JobID j)) eqn:Heq; simpl negb; cbv iota.
  - simpl scan. rewrite Heq. reflexivity.
  - exact IH.
Qed.

Lemma scan_only_logs (j : BacalhauJobRunningEvent) (bacjobs : list Job) (acc : Results) :
  Forall (fun e => is_log e = true) (effects (scan j bacjobs acc)).
Proof.
  induction bacjobs as [|x rest IH]; [constructor|].
  simpl scan.
  destruct (String.eqb (ID (Job_Metadata x)) (JobID j)); simpl negb; cbv iota;
    [|exact IH].
  destruct (WaitForTerminalStates _ _) as [ok1 e1].
  destruct (negb ok1 || negb (is_nil e1)); [repeat constructor|].
  destruct (WaitForJobStates _ _) as [ok2 e2].
  destruct (ok2 && is_nil e2); [repeat constructor|].
  destruct (WaitThrowErrors _ _) as [ok3 e3].
  destruct (negb ok3 || negb (is_nil e3)); repeat constructor.
Qed.

Lemma each_job_only_logs (jobs : list BacalhauJobRunningEvent) (bacjobs : list Job)
      (acc : Results) :
  Forall (fun e => is_log e = true) (effects (each_job jobs bacjobs acc)).
Proof.
  revert acc. induction jobs as [|j rest IH]; intros acc; [constructor|].
  simpl each_job. rewrite effects_bind. apply Forall_app. split.
  - apply scan_only_logs.
  - apply IH.
Qed.

(** What one handle logs does not depend on the results gathered so far. *)
Lemma scan_effects_acc (j : BacalhauJobRunningEvent) (bacjobs : list Job)
      (acc acc' : Results) :
  effects (scan j bacjobs acc) = effects (scan j bacjobs acc').
Proof.
  induction bacjobs as [|x rest IH]; [reflexivity|].
  simpl scan.
  destruct (String.eqb (ID (Job_Metadata x)) (JobID j)); simpl negb; cbv iota;
    [|exact IH].
  destruct (WaitForTerminalStates _ _) as [ok1 e1].
  destruct (negb ok1 || negb (is_nil e1)); [reflexivity|].
  destruct (WaitForJobStates _ _) as [ok2 e2].
  destruct (ok2 && is_nil e2); [reflexivity|].
  destruct (WaitThrowErrors _ _) as [ok3 e3].
  destruct (negb ok3 || negb (is_nil e3)); reflexivity.
Qed.

Lemma each_job_effects_in (jobs : list BacalhauJobRunningEvent) (bacjobs : list Job)
      (acc acc0 : Results) (j : BacalhauJobRunningEvent) (e : Effect) :
  In j jobs ->
  In e (effects (scan j bacjobs acc0)) ->
  In e (effects (each_job jobs bacjobs acc)).
Proof.
  revert acc. induction jobs as [|x rest IH]; intros acc Hj He; [contradiction|].
  simpl each_job. rewrite effects_bind. apply in_or_app.
  destruct Hj as [->|Hj].
  - left. now rewrite (scan_effects_acc j bacjobs acc acc0).
  - right. now apply IH.
Qed.

Lemma FindCompleted_effects_listed (runner : xRunner)
      (jobs : list BacalhauJobRunningEvent) (bacjobs : list Job) :
  publicapi.List_response (Client runner) list_request = (bacjobs, None) ->
  effects (FindCompleted runner jobs) =
  [Logged Debug [Int "jobs" (Z.of_nat (List.length jobs))] "Looking at job states";
   Listed list_request] ++ effects (each_job jobs bacjobs ([], [])).
Proof.
  intros Hq. unfold FindCompleted, publicapi.List.
  rewrite !effects_bind. simpl value. rewrite Hq. reflexivity.
Qed.

Lemma FindCompleted_effects_failed (runner : xRunner)
      (jobs : list BacalhauJobRunningEvent) (bacjobs : list Job) (err : error) :
  publicapi.List_response (Client runner) list_request = (bacjobs, Some err) ->
  effects (FindCompleted runner jobs) =
  [Logged Debug [Int "jobs" (Z.of_nat (List.length jobs))] "Looking at job states";
   Listed list_request;
   Logged Error [Err (Some err)] ""].
Proof.
  intros Hq. unfold FindCompleted, publicapi.List.
  rewrite !effects_bind. simpl value. rewrite Hq. reflexivity.
Qed.

(** X4: whatever the handles and whatever the remote answers,
    [FindCompleted] calls the remote exactly once, with the listing request
    of line 66 (tag filter, page size 100, five-second deadline), and never
    submits anything. *)
Theorem FindCompleted_one_listing (runner : xRunner)
        (jobs : list BacalhauJobRunningEvent) :
  listings (effects (FindCompleted runner jobs)) = [list_request] /\
  submissions (effects (FindCompleted runner jobs)) = [].
Proof.
  destruct (publicapi.List_response (Client runner) list_request)
    as [bacjobs [err|]] eqn:Hq.
  - rewrite (FindCompleted_effects_failed runner jobs bacjobs err Hq).
    split; reflexivity.
  - rewrite (FindCompleted_effects_listed runner jobs bacjobs Hq).
    rewrite listings_app, submissions_app.
    destruct (only_logs_no_calls _ (each_job_only_logs jobs bacjobs ([], []))) as [-> ->].
    split; reflexivity.
Qed.

End FindCompletedEffects.

Section FindCompletedShape.

Context {lib : Bacalhau}.

Lemma completed_of_filter (bacjobs : list Job) (jobs : list BacalhauJobRunningEvent) :
  flat_map (completed_of bacjobs) jobs =
  map Completed
      (filter (fun j => match classify bacjobs j with
                        | Some JobCompleted => true
                        | _ => false
                        end) jobs).
Proof.
  induction jobs as [|j rest IH]; [reflexivity|].
  simpl. unfold completed_of at 1.
  destruct (classify bacjobs j) as [[| | |]|]; simpl; now rewrite IH.
Qed.

Lemma failed_of_filter (bacjobs : list Job) (jobs : list BacalhauJobRunningEvent) :
  flat_map (failed_of bacjobs) jobs =
  map Failed
      (filter (fun j => match classify bacjobs j with
                        | Some JobFailed => true
                        | _ => false
                        end) jobs).
Proof.
  induction jobs as [|j rest IH]; [reflexivity|].
  simpl. unfold failed_of at 1.
  destruct (classify bacjobs j) as [[| | |]|]; simpl; now rewrite IH.
Qed.

(** X5: the two results keep the order of the input. For a given remote
    there are two tests on a single handle, fixed before any input is
    seen, such that for every input each result is the input filtered by
    its test and then turned into events; so a handle passed twice is
    reported twice. No handle passes both tests. *)
Theorem FindCompleted_keeps_order (runner : xRunner) :
  exists keep_completed keep_failed : BacalhauJobRunningEvent -> bool,
    (forall j, keep_completed j && keep_failed j = false) /\
    forall jobs : list BacalhauJobRunningEvent,
      completed_list (FindCompleted runner jobs)
        = map Completed (filter keep_completed jobs) /\
      failed_list (FindCompleted runner jobs)
        = map Failed (filter keep_failed jobs).
Proof.
  destruct (publicapi.List_response (Client runner) list_request)
    as [bacjobs [err|]] eqn:Hq.
  - exists (fun _ => false), (fun _ => false).
    split; [reflexivity|]. intros jobs.
    unfold completed_list, failed_list. rewrite FindCompleted_value, Hq. simpl.
    assert (Hnone : filter (fun _ : BacalhauJobRunningEvent => false) jobs = []).
    { induction jobs; simpl; auto. }
    rewrite Hnone. auto.
  - exists (fun j => match classify bacjobs j with
                     | Some JobCompleted => true
                     | _ => false
                     end),
           (fun j => match classify bacjobs j with
                     | Some JobFailed => true
                     | _ => false
                     end).
    split.
    + intros j. destruct (classify bacjobs j) as [[| | |]|]; reflexivity.
    + intros jobs. unfold completed_list, failed_list.
      rewrite FindCompleted_value, Hq. simpl.
      now rewrite completed_of_filter, failed_of_filter.
Qed.

(** X6: handles are classified one by one: the results for two lists of
    handles put end to end are the results for each list, put end to
    end. *)
Theorem FindCompleted_app (runner : xRunner)
        (jobs1 jobs2 : list BacalhauJobRunningEvent) :
  completed_list (FindCompleted runner (jobs1 ++ jobs2))
    = completed_list (FindCompleted runner jobs1)
      ++ completed_list (FindCompleted runner jobs2) /\
  failed_list (FindCompleted runner (jobs1 ++ jobs2))
    = failed_list (FindCompleted runner jobs1)
      ++ failed_list (FindCompleted runner jobs2).
Proof.
  unfold completed_list, failed_list. rewrite !FindCompleted_value.
  destruct (publicapi.List_response (Client runner) list_request) as [bacjobs [err|]];
    simpl.
  - split; reflexivity.
  - now rewrite !flat_map_app.
Qed.

Lemma each_job_same_matches (jobs : list BacalhauJobRunningEvent)
      (bacjobs1 bacjobs2 : list Job) (acc : Results) :
  (forall j, In j jobs ->
             first_match (JobID j) bacjobs1 = first_match (JobID j) bacjobs2) ->
  each_job jobs bacjobs1 acc = each_job jobs bacjobs2 acc.
Proof.
  revert acc. induction jobs as [|j rest IH]; intros acc Hsame; [reflexivity|].
  simpl each_job.
  assert (Hscan : scan j bacjobs1 acc = scan j bacjobs2 acc).
  { rewrite (scan_first_match j bacjobs1), (scan_first_match j bacjobs2).
    rewrite (Hsame j); simpl; auto. }
  rewrite Hscan. unfold bind. destruct (scan j bacjobs2 acc) as [acc' t].
  rewrite IH; [reflexivity|]. intros j' Hj'. apply Hsame. simpl; auto.
Qed.

(** X7: only the first snapshot under each tracked identifier counts. Two
    successful listings that agree on it for every handle passed, however
    else they differ (other jobs, later duplicates, order), give the same
    results and the same log. *)
Theorem FindCompleted_same_first_matches (r1 r2 : xRunner)
        (jobs : list BacalhauJobRunningEvent) :
  snd (publicapi.List_response (Client r1) list_request) = None ->
  snd (publicapi.List_response (Client r2) list_request) = None ->
  (forall j, In j jobs ->
     first_match (JobID j) (fst (publicapi.List_response (Client r1) list_request))
     = first_match (JobID j) (fst (publicapi.List_response (Client r2) list_request))) ->
  FindCompleted r1 jobs = FindCompleted r2 jobs.
Proof.
  intros H1 H2 Hsame. unfold FindCompleted, publicapi.List.
  destruct (publicapi.List_response (Client r1) list_request) as [b1 e1].
  destruct (publicapi.List_response (Client r2) list_request) as [b2 e2].
  simpl in H1, H2, Hsame. subst e1 e2.
  unfold bind, tell, ret. simpl.
  now rewrite (each_job_same_matches jobs b1 b2 ([], []) Hsame).
Qed.

End FindCompletedShape.

Lemma FindCompleted_same_first_matches_witness :
  FindCompleted (lib := spec_bacalhau)
    (remote_listing [snapshot "job-0" 1 [shard 0 JobStateCompleted];
                     one_completed_one_errored; three_completed])
    [tracked "job-1"; tracked2 "job-1"]
  = FindCompleted (lib := spec_bacalhau)
      (remote_read_only [one_completed_one_errored])
      [tracked "job-1"; tracked2 "job-1"].
Proof.
  apply (@FindCompleted_same_first_matches spec_bacalhau
           (remote_listing [snapshot "job-0" 1 [shard 0 JobStateCompleted];
                            one_completed_one_errored; three_completed])
           (remote_read_only [one_completed_one_errored])
           [tracked "job-1"; tracked2 "job-1"]).
  - reflexivity.
  - reflexivity.
  - intros j Hin. simpl in Hin. destruct Hin as [<-|[<-|[]]]; reflexivity.
Defined.

Section FindCompletedTests.

Context {lib : Bacalhau}.

Lemma pair_true_nil (r : bool * option error) :
  negb (fst r) || negb (is_nil (snd r)) = false <-> r = (true, None).
Proof.
  destruct r as [[|] [e|]]; simpl; split; intros H; congruence.
Qed.

Lemma pair_true_nil_and (r : bool * option error) :
  fst r && is_nil (snd r) = true <-> r = (true, None).
Proof.
  destruct r as [[|] [e|]]; simpl; split; intros H; congruence.
Qed.

Lemma verdict_completed (b : Job) :
  verdict b = JobCompleted <->
  WaitForTerminalStates (GetJobTotalExecutionCount b) (Status_State (Job_Status b))
    = (true, None) /\
  WaitForJobStates [(JobStateCompleted, GetJobTotalExecutionCount b)]
    (Status_State (Job_Status b)) = (true, None).
Proof.
  rewrite <- pair_true_nil, <- pair_true_nil_and.
  unfold verdict, still_running, complete, has_errors. simpl.
  destruct (negb _ || negb _); [split; [discriminate | intros [? _]; discriminate]|].
  destruct (_ && _); [tauto|].
  split; [|intros [_ ?]; discriminate].
  destruct (negb _ || negb _); discriminate.
Qed.

Lemma verdict_failed (b : Job) :
  verdict b = JobFailed <->
  WaitForTerminalStates (GetJobTotalExecutionCount b) (Status_State (Job_Status b))
    = (true, None) /\
  WaitForJobStates [(JobStateCompleted, GetJobTotalExecutionCount b)]
    (Status_State (Job_Status b)) <> (true, None) /\
  WaitThrowErrors [JobStateError] (Status_State (Job_Status b)) <> (true, None).
Proof.
  rewrite <- pair_true_nil, <- pair_true_nil_and, <- pair_true_nil.
  unfold verdict, still_running, complete, has_errors. simpl.
  destruct (negb _ || negb _); [split; [discriminate | intros [? _]; discriminate]|].
  destruct (_ && _); [split; [discriminate | intros [_ [? _]]; congruence]|].
  destruct (negb _ || negb _).
  - split; [intros _; repeat split; congruence | reflexivity].
  - split; [discriminate | intros [_ [_ ?]]; congruence].
Qed.

(** X8: a handle is reported as completed exactly when it was passed in,
    the listing succeeded, and the first snapshot under its identifier
    passes both the terminal-state test and the completion test, each with
    a true result and a nil error. The error-state test has no say. *)
Theorem FindCompleted_completed_iff (runner : xRunner)
        (jobs : list BacalhauJobRunningEvent) (j : BacalhauJobRunningEvent) :
  In (Completed j) (completed_list (FindCompleted runner jobs)) <->
  In j jobs /\
  exists bacjobs b,
    publicapi.List_response (Client runner) list_request = (bacjobs, None) /\
    first_match (JobID j) bacjobs = Some b /\
    WaitForTerminalStates (GetJobTotalExecutionCount b) (Status_State (Job_Status b))
      = (true, None) /\
    WaitForJobStates [(JobStateCompleted, GetJobTotalExecutionCount b)]
      (Status_State (Job_Status b)) = (true, None).
Proof.
  rewrite in_completed_list.
  destruct (publicapi.List_response (Client runner) list_request) as [bacjobs err].
  simpl. unfold classify. split.
  - intros [Hj [-> Hv]]. split; [exact Hj|].
    destruct (first_match (JobID j) bacjobs) as [b|] eqn:Hm; [|discriminate].
    simpl in Hv. injection Hv as Hv. apply verdict_completed in Hv.
    exists bacjobs, b. tauto.
  - intros [Hj [bacjobs' [b [Heq [Hm [Ht Hc]]]]]].
    injection Heq as <- ->. rewrite Hm. simpl.
    repeat split; auto. f_equal. apply verdict_completed. tauto.
Qed.

(** X9: a handle is reported as failed exactly when it was passed in, the
    listing succeeded, and the first snapshot under its identifier passes
    the terminal-state test, does not pass the completion test, and does
    not pass the error-state test with a true result and a nil error. *)
Theorem FindCompleted_failed_iff (runner : xRunner)
        (jobs : list BacalhauJobRunningEvent) (j : BacalhauJobRunningEvent) :
  In (Failed j) (failed_list (FindCompleted runner jobs)) <->
  In j jobs /\
  exists bacjobs b,
    publicapi.List_response (Client runner) list_request = (bacjobs, None) /\
    first_match (JobID j) bacjobs = Some b /\
    WaitForTerminalStates (GetJobTotalExecutionCount b) (Status_State (Job_Status b))
      = (true, None) /\
    WaitForJobStates [(JobStateCompleted, GetJobTotalExecutionCount b)]
      (Status_State (Job_Status b)) <> (true, None) /\
    WaitThrowErrors [JobStateError] (Status_State (Job_Status b)) <> (true, None).
Proof.
  rewrite in_failed_list.
  destruct (publicapi.List_response (Client runner) list_request) as [bacjobs err].
  simpl. unfold classify. split.
  - intros [Hj [-> Hv]]. split; [exact Hj|].
    destruct (first_match (JobID j) bacjobs) as [b|] eqn:Hm; [|discriminate].
    simpl in Hv. injection Hv as Hv. apply verdict_failed in Hv.
    exists bacjobs, b. tauto.
  - intros [Hj [bacjobs' [b [Heq [Hm Hv]]]]].
    injection Heq as <- ->. rewrite Hm. simpl.
    repeat split; auto. f_equal. apply verdict_failed. exact Hv.
Qed.

Lemma first_match_id (id : string) (bacjobs : list Job) (b : Job) :
  first_match id bacjobs = Some b ->
  String.eqb (ID (Job_Metadata b)) id = true.
Proof.
  intros Hm. unfold first_match in Hm. apply find_some in Hm. tauto.
Qed.

(** X10: a handle whose matching snapshot is terminal, not complete, and
    passes the error-state test is reported in neither result, and a
    warning that the job is in an unknown state is logged for it. *)
Theorem FindCompleted_unknown_state (runner : xRunner)
        (jobs : list BacalhauJobRunningEvent) (j : BacalhauJobRunningEvent)
        (bacjobs : list Job) (b : Job) :
  publicapi.List_response (Client runner) list_request = (bacjobs, None) ->
  In j jobs ->
  first_match (JobID j) bacjobs = Some b ->
  WaitForTerminalStates (GetJobTotalExecutionCount b) (Status_State (Job_Status b))
    = (true, None) ->
  WaitForJobStates [(JobStateCompleted, GetJobTotalExecutionCount b)]
    (Status_State (Job_Status b)) <> (true, None) ->
  WaitThrowErrors [JobStateError] (Status_State (Job_Status b)) = (true, None) ->
  ~ In (Completed j) (completed_list (FindCompleted runner jobs)) /\
  ~ In (Failed j) (failed_list (FindCompleted runner jobs)) /\
  In (Logged Warn [Str "id" (OrderId_of j); Str "job" (JobID j)]
        "Bacalhau job in unknown state")
     (effects (FindCompleted runner jobs)).
Proof.
  intros Hq Hj Hm Ht Hnc Herr.
  assert (Hv : verdict b = UnknownState).
  { unfold verdict, still_running, complete, has_errors.
    rewrite Ht, Herr. simpl.
    destruct (WaitForJobStates _ _) as [[|] [e|]]; simpl; congruence. }
  split; [|split].
  - intros Hin. apply in_completed_list in Hin. rewrite Hq in Hin. simpl in Hin.
    destruct Hin as [_ [_ Hc]]. unfold classify in Hc. rewrite Hm in Hc.
    simpl in Hc. congruence.
  - intros Hin. apply in_failed_list in Hin. rewrite Hq in Hin. simpl in Hin.
    destruct Hin as [_ [_ Hc]]. unfold classify in Hc. rewrite Hm in Hc.
    simpl in Hc. congruence.
  - rewrite (FindCompleted_effects_listed runner jobs bacjobs Hq).
    apply in_or_app. right.
    apply (each_job_effects_in jobs bacjobs ([], []) ([], []) j _ Hj).
    rewrite scan_first_match, Hm. simpl scan.
    rewrite (first_match_id _ _ _ Hm). simpl negb. cbv iota.
    rewrite Ht. simpl.
    destruct (WaitForJobStates _ _) as [[|] [e|]]; simpl; try congruence;
      rewrite Herr; simpl; auto.
Qed.

(** X11: the classification goes by the Job Handle identifier alone: two
    handles passed together that carry the same identifier, whatever their
    orders, are reported alike. *)
Theorem FindCompleted_same_JobID (runner : xRunner)
        (jobs : list BacalhauJobRunningEvent) (j1 j2 : BacalhauJobRunningEvent) :
  In j1 jobs ->
  In j2 jobs ->
  JobID j1 = JobID j2 ->
  (In (Completed j1) (completed_list (FindCompleted runner jobs)) <->
   In (Completed j2) (completed_list (FindCompleted runner jobs))) /\
  (In (Failed j1) (failed_list (FindCompleted runner jobs)) <->
   In (Failed j2) (failed_list (FindCompleted runner jobs))).
Proof.
  intros H1 H2 Hid.
  rewrite !in_completed_list, !in_failed_list.
  unfold classify. rewrite Hid. tauto.
Qed.

End FindCompletedTests.

Lemma FindCompleted_unknown_state_witness :
  ~ In (Completed (tracked "job-1"))
      (completed_list (FindCompleted (lib := spec_bacalhau)
                         (remote_listing [two_completed_of_one]) [tracked "job-1"])) /\
  ~ In (Failed (tracked "job-1"))
      (failed_list (FindCompleted (lib := spec_bacalhau)
                      (remote_listing [two_completed_of_one]) [tracked "job-1"])) /\
  In (Logged Warn [Str "id" "order-1"; Str "job" "job-1"] "Bacalhau job in unknown state")
     (effects (FindCompleted (lib := spec_bacalhau)
                 (remote_listing [two_completed_of_one]) [tracked "job-1"])).
Proof.
  apply (@FindCompleted_unknown_state spec_bacalhau
           (remote_listing [two_completed_of_one]) [tracked "job-1"] (tracked "job-1")
           [two_completed_of_one] two_completed_of_one).
  - reflexivity.
  - simpl. auto.
  - reflexivity.
  - reflexivity.
  - vm_compute. discriminate.
  - reflexivity.
Defined.

Lemma FindCompleted_same_JobID_witness :
  (In (Completed (tracked "job-1"))
      (completed_list (FindCompleted (lib := spec_bacalhau)
                         (remote_listing [three_completed])
                         [tracked "job-1"; tracked2 "job-1"])) <->
   In (Completed (tracked2 "job-1"))
      (completed_list (FindCompleted (lib := spec_bacalhau)
                         (remote_listing [three_completed])
                         [tracked "job-1"; tracked2 "job-1"]))) /\
  (In (Failed (tracked "job-1"))
      (failed_list (FindCompleted (lib := spec_bacalhau)
                      (remote_listing [three_completed])
                      [tracked "job-1"; tracked2 "job-1"])) <->
   In (Failed (tracked2 "job-1"))
      (failed_list (FindCompleted (lib := spec_bacalhau)
                      (remote_listing [three_completed])
                      [tracked "job-1"; tracked2 "job-1"]))).
Proof.
  apply (@FindCompleted_same_JobID spec_bacalhau (remote_listing [three_completed])
           [tracked "job-1"; tracked2 "job-1"] (tracked "job-1") (tracked2 "job-1")).
  - simpl. auto.
  - simpl. auto.
  - reflexivity.
Defined.

(** ** The test doubles *)

Lemma assert_each_all {A : Type} (assertion : BacalhauJobRunningEvent -> option A)
      (jobs : list BacalhauJobRunningEvent) (acc : list A) :
  (forall j, In j jobs -> assertion j <> None) ->
  exists l, assert_each assertion jobs acc = Returned (acc ++ l) /\
            map Some l = map assertion jobs.
Proof.
  revert acc. induction jobs as [|job rest IH]; intros acc Hall.
  - exists []. simpl. now rewrite app_nil_r.
  - simpl. destruct (assertion job) as [a|] eqn:Ha.
    + destruct (IH (acc ++ [a])) as [l [Hl Hm]].
      { intros j Hj. apply Hall. simpl; auto. }
      exists (a :: l). rewrite Hl, <- app_assoc. simpl. now rewrite Hm.
    + exfalso. apply (Hall job); simpl; auto.
Qed.

Lemma assert_each_panics {A : Type} (assertion : BacalhauJobRunningEvent -> option A)
      (jobs : list BacalhauJobRunningEvent) (acc : list A) :
  (exists j, In j jobs /\ assertion j = None) ->
  assert_each assertion jobs acc = Panicked.
Proof.
  revert acc. induction jobs as [|job rest IH]; intros acc [j [Hin Hnone]].
  - contradiction.
  - simpl. destruct (assertion job) as [a|] eqn:Ha.
    + apply IH. destruct Hin as [->|Hin]; [congruence|]. exists j. auto.
    + reflexivity.
Qed.

Section DoublesFacts.

Context {ev : EventAssertions}.

(** X12: [SuccssfulFind] asks nothing of any remote and looks at no job
    state. If every handle passes the assertion to the completed-event
    interface it reports all of them as completed, one event per handle in
    the order given, and none as failed; if one does not, it panics. *)
Theorem SuccssfulFind_reports_all (jobs : list BacalhauJobRunningEvent) :
  effects (SuccssfulFind jobs) = [] /\
  ((forall j, In j jobs -> as_Completed j <> None) ->
   exists completed,
     value (SuccssfulFind jobs) = Returned (completed, []) /\
     map Some completed = map as_Completed jobs /\
     List.length completed = List.length jobs) /\
  ((exists j, In j jobs /\ as_Completed j = None) ->
   value (SuccssfulFind jobs) = Panicked).
Proof.
  unfold SuccssfulFind. split; [reflexivity|]. split.
  - intros Hall. destruct (assert_each_all as_Completed jobs [] Hall) as [l [Hl Hm]].
    exists l. rewrite Hl. simpl. repeat split; auto.
    rewrite <- (length_map Some l), Hm. apply length_map.
  - intros Hex. now rewrite (assert_each_panics as_Completed jobs [] Hex).
Qed.

(** X13: [FailedFind] is the mirror image: with every handle passing the
    assertion to the failed-event interface it reports all of them as
    failed, in order, and none as completed; otherwise it panics. *)
Theorem FailedFind_reports_all (jobs : list BacalhauJobRunningEvent) :
  effects (FailedFind jobs) = [] /\
  ((forall j, In j jobs -> as_Failed j <> None) ->
   exists failed,
     value (FailedFind jobs) = Returned ([], failed) /\
     map Some failed = map as_Failed jobs /\
     List.length failed = List.length jobs) /\
  ((exists j, In j jobs /\ as_Failed j = None) ->
   value (FailedFind jobs) = Panicked).
Proof.
  unfold FailedFind. split; [reflexivity|]. split.
  - intros Hall. destruct (assert_each_all as_Failed jobs [] Hall) as [l [Hl Hm]].
    exists l. rewrite Hl. simpl. repeat split; auto.
    rewrite <- (length_map Some l), Hm. apply length_map.
  - intros Hex. now rewrite (assert_each_panics as_Failed jobs [] Hex).
Qed.

(** X14: a mock runner with no handler set accepts every order and then
    reports every job it created as completed. For any events, its [Create]
    returns for each one a handle with that event's Order Identifier and a
    nil error, without any effect; and on those handles its [FindCompleted]
    returns one completed event per handle, in order, and no failed one,
    provided the handles pass the assertion to the completed-event
    interface. *)
Theorem mockRunner_default_completes_created
        (events : list ContractSubmittedEvent) :
  let mock := {| CreateHandler := None; FindCompletedHandler := None |} in
  exists handles,
    Forall2 (fun e h => mock_Create mock e = (Returned (Some h, None), []) /\
                        OrderId_of h = cse_OrderId e)
            events handles /\
    ((forall h, In h handles -> as_Completed h <> None) ->
     exists completed,
       value (mock_FindCompleted mock handles) = Returned (completed, []) /\
       map Some completed = map as_Completed handles /\
       List.length completed = List.length events).
Proof.
  intros mock. exists (map (fun e => JobCreated e NewJob) events). split.
  - induction events as [|e es IH]; simpl; constructor.
    + split; reflexivity.
    + exact IH.
  - intros Hassert.
    destruct (assert_each_all as_Completed _ [] Hassert) as [l [Hl Hm]].
    exists l. unfold mock_FindCompleted, SuccssfulFind. simpl. rewrite Hl.
    split; [reflexivity|]. split; [exact Hm|].
    rewrite <- (length_map Some l), Hm. now rewrite !length_map.
Qed.

End DoublesFacts.

Lemma SuccssfulFind_reports_all_witness :
  (exists completed,
     value (SuccssfulFind (ev := events_one_type) [tracked "job-1"; tracked2 "job-2"])
       = Returned (completed, []) /\
     map Some completed
       = map (as_Completed (EventAssertions := events_one_type))
             [tracked "job-1"; tracked2 "job-2"] /\
     List.length completed = 2%nat) /\
  value (SuccssfulFind (ev := events_distinct_types) [tracked "job-1"]) = Panicked.
Proof.
  split.
  - apply (proj1 (proj2 (@SuccssfulFind_reports_all events_one_type
                           [tracked "job-1"; tracked2 "job-2"]))).
    intros j _. discriminate.
  - apply (proj2 (proj2 (@SuccssfulFind_reports_all events_distinct_types
                           [tracked "job-1"]))).
    exists (tracked "job-1"). split; [simpl; auto | reflexivity].
Defined.

Lemma FailedFind_reports_all_witness :
  (exists failed,
     value (FailedFind (ev := events_one_type) [tracked "job-1"; tracked2 "job-2"])
       = Returned ([], failed) /\
     map Some failed
       = map (as_Failed (EventAssertions := events_one_type))
             [tracked "job-1"; tracked2 "job-2"] /\
     List.length failed = 2%nat) /\
  value (FailedFind (ev := events_distinct_types) [tracked "job-1"]) = Panicked.
Proof.
  split.
  - apply (proj1 (proj2 (@FailedFind_reports_all events_one_type
                           [tracked "job-1"; tracked2 "job-2"]))).
    intros j _. discriminate.
  - apply (proj2 (proj2 (@FailedFind_reports_all events_distinct_types
                           [tracked "job-1"]))).
    exists (tracked "job-1"). split; [simpl; auto | reflexivity].
Defined.

Lemma mockRunner_default_completes_created_witness :
  exists handles,
    Forall2 (fun e h =>
               mock_Create {| CreateHandler := None; FindCompletedHandler := None |} e
                 = (Returned (Some h, None), []) /\
               OrderId_of h = cse_OrderId e)
            [order1; order2] handles /\
    exists completed,
      value (mock_FindCompleted (ev := events_one_type)
               {| CreateHandler := None; FindCompletedHandler := None |} handles)
        = Returned (completed, []) /\
      map Some completed
        = map (as_Completed (EventAssertions := events_one_type)) handles /\
      List.length completed = List.length [order1; order2].
Proof.
  destruct (@mockRunner_default_completes_created events_one_type [order1; order2])
    as [handles [Hcreated Hfind]].
  exists handles. split; [exact Hcreated|].
  apply Hfind. intros h _. discriminate.
Defined.
